(** * mimir.plot: the snapshot / live-stream reconciliation of [plot.py]

    A shallow embedding of [update], of the two loops that drive it
    ([serve_plot]'s periodic callback and [notebook_plot]'s [while True]),
    of the snapshot loop of [get_socket] and of the compilation of the file,
    which is where a call of [get_socket] ends; followed by the properties
    of the reconciliation that the specification states about them.

    Python objects that are shared by reference (the subscriber socket, the
    plot's data source and the list objects stored in it) live in a [world];
    code is written in a state-and-exception monad over that world, and an
    exception keeps the effects that happened before it was raised. *)

From Stdlib Require Import ZArith.
From stdpp Require Import base option list gmap strings.

Local Open Scope Z_scope.

(** ** Values *)

(** A log entry is a JSON object whose fields hold scalars. *)
Inductive json :=
  | JNull
  | JBool (b : bool)
  | JNum (n : Z)
  | JStr (s : string).

#[global] Instance json_eq_dec : EqDecision json.
Proof. solve_decision. Defined.

(** [recv] returns the pair [(sequence, entry)]. *)
Definition envelope : Type := Z * gmap string json.

(** The exceptions that the modelled code can raise. *)
Inductive exn :=
  | NameError (name : string)
  | KeyError (key : string)
  | TypeError
  | ConnectionError
  | ProtocolError
  | WouldBlock
  | SystemError
  | SyntaxError.

#[global] Instance exn_eq_dec : EqDecision exn.
Proof. solve_decision. Defined.

(** What the process does on its sockets, in program order. *)
Inductive event :=
  | EvContext
  | EvConnect (host : string) (port : Z)
  | EvRequest (port : Z)
  | EvRecv.

#[global] Instance event_eq_dec : EqDecision event.
Proof. solve_decision. Defined.

(** ** The world *)

(** A list object is named by its position in the heap; a list that is built
    by [+] is a new object at the end of the heap. [data] is the dictionary
    held by [plot.data_source.data]: column name to list object. *)
Record world := World {
  reachable : bool;
  snapshot : option (Z * list (gmap string json));
  inbox : list envelope;
  heap : list (list json);
  data : gmap string nat;
  trace : list event
}.

Definition M (A : Type) : Type := world → (exn + A) * world.

#[global] Instance M_ret : MRet M := λ A a w, (inr a, w).

#[global] Instance M_bind : MBind M := λ A B k m w,
  match m w with
  | (inl e, w') => (inl e, w')
  | (inr a, w') => k a w'
  end.

#[global] Typeclasses Opaque M.

Definition raise {A} (e : exn) : M A := λ w, (inl e, w).

Definition emit (ev : event) : M unit := λ w,
  (inr (), World (reachable w) (snapshot w) (inbox w) (heap w) (data w)
                 (trace w ++ [ev])).

(** ** The transport ([zmq] and [mimir.stream], which the module imports) *)

(** [zmq.Context()]. *)
Definition zmq_Context : M unit := emit EvContext.

(** Modelled from the spec: [connect] of [mimir.stream], which is not part of
    the sources at hand. It opens the subscription channel and fails with a
    [ConnectionError] when the endpoint cannot be reached. *)
Definition handshake : M unit := λ w,
  if reachable w then (inr (), w) else (inl ConnectionError, w).

Definition connect (host : string) (port : Z) : M unit :=
  emit (EvConnect host port);; handshake.

(** Modelled from the spec: [recv] of [mimir.stream]. One message of the live
    channel per call, delivered in order; with nothing pending the call does
    not return, which is [WouldBlock] here. *)
Definition next_message : M envelope := λ w,
  match inbox w with
  | e :: q =>
      (inr e, World (reachable w) (snapshot w) q (heap w) (data w) (trace w))
  | [] => (inl WouldBlock, w)
  end.

Definition recv : M envelope := emit EvRecv;; next_message.

(** ** Dictionaries and list objects *)

(** [key in entry]. *)
Definition contains (key : string) (entry : gmap string json) : bool :=
  bool_decide (is_Some (entry !! key)).

(** [entry[key]]. *)
Definition getitem (entry : gmap string json) (key : string) : M json :=
  match entry !! key with
  | Some v => mret v
  | None => raise (KeyError key)
  end.

(** [plot.data_source.data[col]]: the contents of the list object that the
    column refers to. *)
Definition column (col : string) : M (list json) := λ w,
  match data w !! col with
  | None => (inl (KeyError col), w)
  | Some l =>
      match heap w !! l with
      | Some xs => (inr xs, w)
      | None => (inl SystemError, w)
      end
  end.

(** The list built by [xs + [v]]: a new object, no existing one is touched. *)
Definition new_list (xs : list json) : M nat := λ w,
  (inr (length (heap w)),
   World (reachable w) (snapshot w) (inbox w) (heap w ++ [xs]) (data w) (trace w)).

(** [plot.data_source.data = d]. *)
Definition set_data (d : gmap string nat) : M unit := λ w,
  (inr (), World (reachable w) (snapshot w) (inbox w) (heap w) d (trace w)).

(** ** [update] *)

(** [update(x_key, y_key, init_sequence, subscriber, plot)]; the subscriber
    and the plot are the ones of the world. *)
Definition update (x_key y_key : string) (init_sequence : Z) : M unit :=
  '(sequence, entry) ← recv;
  if bool_decide (sequence > init_sequence)
     && contains x_key entry && contains y_key entry
  then
    xs ← column "x";
    vx ← getitem entry x_key;
    x ← new_list (xs ++ [vx]);
    ys ← column "y";
    vy ← getitem entry y_key;
    y ← new_list (ys ++ [vy]);
    set_data {[ "x" := x; "y" := y ]}
  else mret ().

(** ** The loops that drive [update] *)

(** [serve_plot]: [serve_update = partial(update, x_key, y_key, sequence,
    subscriber, plot)] is handed to [add_periodic_callback]; the event loop
    then calls it once per tick. An exception ends the run. *)
Fixpoint add_periodic_callback (callback : M unit) (ticks : nat) : M unit :=
  match ticks with
  | O => mret ()
  | S n => callback;; add_periodic_callback callback n
  end.

Definition serve_update (x_key y_key : string) (sequence : Z) : M unit :=
  update x_key y_key sequence.

(** [push_notebook(handle=handle)] redraws; it does not touch the world. *)
Definition push_notebook : M unit := mret ().

(** What a caller passes for [y_key]: a str, as [update] documents, or a list
    of str, as [notebook_plot] documents for the [y_keys] that it hands on
    to [update]. *)
Inductive key_arg :=
  | KeyStr (s : string)
  | KeyList (l : list string).

(** [key in entry]: the dictionary hashes the key, and a list has no hash. *)
Definition contains_arg (key : key_arg) (entry : gmap string json) : M bool :=
  match key with
  | KeyStr s => mret (contains s entry)
  | KeyList _ => raise TypeError
  end.

(** [entry[key]]. *)
Definition getitem_arg (entry : gmap string json) (key : key_arg) : M json :=
  match key with
  | KeyStr s => getitem entry s
  | KeyList _ => raise TypeError
  end.

(** [update(x_key, y_key, init_sequence, subscriber, plot)] for either kind
    of [y_key]. The [and] of line 90 evaluates [y_key in entry] only when the
    two tests before it hold. *)
Definition update_arg (x_key : string) (y_key : key_arg) (init_sequence : Z)
  : M unit :=
  '(sequence, entry) ← recv;
  test ← (if bool_decide (sequence > init_sequence) && contains x_key entry
          then contains_arg y_key entry
          else mret false);
  if test : bool
  then
    xs ← column "x";
    vx ← getitem entry x_key;
    x ← new_list (xs ++ [vx]);
    ys ← column "y";
    vy ← getitem_arg entry y_key;
    y ← new_list (ys ++ [vy]);
    set_data {[ "x" := x; "y" := y ]}
  else mret ().

(** [notebook_plot]: [while True: update(x_key, y_keys, sequence, subscriber,
    plot); push_notebook(handle=handle)], with the list of str that
    [notebook_plot] documents for [y_keys], observed after [fuel]
    iterations. *)
Fixpoint notebook_loop (x_key : string) (y_keys : list string) (sequence : Z)
    (fuel : nat) : M unit :=
  match fuel with
  | O => mret ()
  | S n =>
      update_arg x_key (KeyList y_keys) sequence;;
      push_notebook;;
      notebook_loop x_key y_keys sequence n
  end.

(** ** The snapshot loop of [get_socket] *)




(** ** Compiling the module *)

(** Python compiles a file as a whole before it runs its first statement. Of
    the grammar, this is the part that reads the arguments of a call, over
    the tokens that the call at line 56 is written in:

      arglist  ::=  argument ("," argument)* [","]
      argument ::=  test [comp_for]  |  test "=" test
      comp_for ::=  "for" NAME "in" test
      test     ::=  NAME  |  "[" "]"

    This is a part of Python's grammar, not the whole (expressions are names
    and the empty list, a generator has one [for] clause with a name for its
    target): what it accepts, Python accepts. As in the whole grammar, an
    argument [NAME "=" test] ends there, and what follows it is a comma or
    the end of the arguments. The checks that follow the grammar are: the
    left side of "=" is a name; a generator expression without parentheses of
    its own is all there is between the parentheses of the call; no
    positional argument follows a keyword argument; no keyword is given
    twice. *)
Inductive token :=
  | NAME (id : string)
  | EQUAL
  | COMMA
  | LSQB
  | RSQB
  | FOR
  | IN.

#[global] Instance token_eq_dec : EqDecision token.
Proof. solve_decision. Defined.

Inductive expr :=
  | Name (id : string)
  | EmptyList.

Inductive argument :=
  | Positional (e : expr)
  | Generator (e : expr) (target : string) (iterable : expr)
  | Keyword (id : string) (e : expr).

Definition parse_test (ts : list token) : option (expr * list token) :=
  match ts with
  | NAME id :: rest => Some (Name id, rest)
  | LSQB :: RSQB :: rest => Some (EmptyList, rest)
  | _ => None
  end.

Definition parse_argument (ts : list token)
  : option (argument * list token) :=
  match parse_test ts with
  | Some (Name id, EQUAL :: rest) =>
      match parse_test rest with
      | Some (e, rest') => Some (Keyword id e, rest')
      | None => None
      end
  | Some (_, EQUAL :: _) => None
  | Some (e, FOR :: NAME target :: IN :: rest) =>
      match parse_test rest with
      | Some (iterable, rest') => Some (Generator e target iterable, rest')
      | None => None
      end
  | Some (_, FOR :: _) => None
  | Some (e, rest) => Some (Positional e, rest)
  | None => None
  end.

(** After an argument comes a comma or the end of the list; [fuel] bounds
    the number of arguments. *)
Fixpoint parse_arglist (fuel : nat) (ts : list token)
  : option (list argument) :=
  match fuel with
  | O => None
  | S n =>
      match parse_argument ts with
      | Some (a, []) => Some [a]
      | Some (a, [COMMA]) => Some [a]
      | Some (a, COMMA :: rest) => (a ::.) <$> parse_arglist n rest
      | _ => None
      end
  end.

Definition is_generator (a : argument) : bool :=
  match a with
  | Generator _ _ _ => true
  | _ => false
  end.

Definition is_keyword (a : argument) : bool :=
  match a with
  | Keyword _ _ => true
  | _ => false
  end.

Definition sole_generator (ts : list token) (args : list argument) : bool :=
  negb (existsb is_generator args)
  || bool_decide (length args = 1%nat ∧ last ts ≠ Some COMMA).

Fixpoint keywords_last (args : list argument) : bool :=
  match args with
  | [] => true
  | Keyword _ _ :: rest => forallb is_keyword rest
  | _ :: rest => keywords_last rest
  end.

Definition keywords (args : list argument) : list string :=
  omap (λ a, match a with Keyword id _ => Some id | _ => None end) args.

(** The arguments between the parentheses of a call, or the [SyntaxError]
    that the compiler raises for them. *)
Definition call_arguments (ts : list token) : exn + list argument :=
  match ts with
  | [] => inr []
  | _ =>
      match parse_arglist (length ts) ts with
      | Some args =>
          if sole_generator ts args && keywords_last args
             && bool_decide (NoDup (keywords args))
          then inr args
          else inl SyntaxError
      | None => inl SyntaxError
      end
  end.

(** The arguments of the call at line 56, [dict(key=[] for key in y_keys)]. *)
Definition line_56 : list token :=
  [ NAME "key"; EQUAL; LSQB; RSQB; FOR; NAME "key"; IN; NAME "y_keys" ].

(** [import mimir.plot]: the file is compiled, which reads the call at line
    56, before any of its statements runs. *)
Definition import_plot : M unit :=
  match call_arguments line_56 with
  | inl e => raise e
  | inr _ => mret ()
  end.

(** ** [get_socket] *)

Section client.
(** What the statements of [get_socket] would do is not for this development
    to say, since one of them is the statement of line 56.
    [get_socket_body] stands for any behaviour of the body. *)
Context (get_socket_body :
           string → string → string → Z → Z → bool →
           M (Z * list json * gmap string (list json))).

(** A call [get_socket(x_key, y_key, host, push_port, router_port,
    persistent)] by a client of the module: the function is reached through
    the import of the module. The result is [(sequence, x, y)]; the
    subscriber is the world's. *)
Definition get_socket (x_key y_key host : string) (push_port router_port : Z)
    (persistent : bool) : M (Z * list json * gmap string (list json)) :=
  import_plot;;
  get_socket_body x_key y_key host push_port router_port persistent.
End client.

(** ** Observing the series *)

(** The two columns that a reader of the plot sees. *)
Definition series (w : world) : option (list json * list json) :=
  lx ← data w !! "x";
  xs ← heap w !! lx;
  ly ← data w !! "y";
  ys ← heap w !! ly;
  Some (xs, ys).

(** A world in which the plot was drawn from the lists [xs] and [ys]
    ([fig.line(x, y)]) and [envs] are pending on the subscriber. *)
Definition session (xs ys : list json) (envs : list envelope) : world :=
  World true None envs [xs; ys] {[ "x" := 0%nat; "y" := 1%nat ]} [].

Definition env (seq : Z) (fields : list (string * Z)) : envelope :=
  (seq, list_to_map ((λ kv, (kv.1, JNum kv.2)) <$> fields)).

(** ** Vocabulary of the statements *)

(** The test of [update]'s [if], on one envelope. *)
Definition accepted (x_key y_key : string) (init_sequence : Z) (e : envelope)
  : bool :=
  bool_decide (e.1 > init_sequence)
  && contains x_key e.2 && contains y_key e.2.

(** The point that an envelope contributes, if it is accepted. *)
Definition point (x_key y_key : string) (init_sequence : Z) (e : envelope)
  : option (json * json) :=
  if accepted x_key y_key init_sequence e
  then vx ← e.2 !! x_key; vy ← e.2 !! y_key; Some (vx, vy)
  else None.

Definition points (x_key y_key : string) (init_sequence : Z)
    (envs : list envelope) : list (json * json) :=
  omap (point x_key y_key init_sequence) envs.

(** The world after one message was taken off the subscriber. *)
Definition received (w : world) (q : list envelope) : world :=
  World (reachable w) (snapshot w) q (heap w) (data w) (trace w ++ [EvRecv]).

(** The world after one message was taken and the point [(vx, vy)] drawn. *)
Definition drawn (w : world) (q : list envelope) (xs ys : list json)
    (vx vy : json) : world :=
  World (reachable w) (snapshot w) q
        ((heap w ++ [xs ++ [vx]]) ++ [ys ++ [vy]])
        {[ "x" := length (heap w); "y" := S (length (heap w)) ]}
        (trace w ++ [EvRecv]).


(** ** The scenarios of the specification *)

(** The plot drawn from the snapshot [S = 5], [[{x:1,y:10}; {x:2,y:20}]], with
    three live envelopes pending: [seq = 3], [seq = 6] and [seq = 6] again. *)
Definition duplicate_scenario : world :=
  session [JNum 1; JNum 2] [JNum 10; JNum 20]
    [ env 3 [("x", 2); ("y", 20)];
      env 6 [("x", 3); ("y", 30)];
      env 6 [("x", 3); ("y", 30)] ].

(** An empty plot; an envelope without its y-key is followed by one that has
    the same sequence number and both keys. *)
Definition resend_scenario : world :=
  session [] [] [ env 1 [("x", 5)]; env 1 [("x", 5); ("y", 50)] ].

(** The same plot with only envelopes that the snapshot already covers. *)
Definition replay_scenario : world :=
  session [JNum 1; JNum 2] [JNum 10; JNum 20]
    [ env 4 [("x", 1); ("y", 10)]; env 5 [("x", 2); ("y", 20)] ].

(** An empty plot and the first live envelope [seq = 1], [{x:5, y:50}]. *)
Definition fresh_scenario : world :=
  session [] [] [ env 1 [("x", 5); ("y", 50)] ].

(** ** Vocabulary for the snapshot loop and for plots of other shapes *)





(** The world [w] with [envs] pending on the subscriber. *)
Definition pending (w : world) (envs : list envelope) : world :=
  World (reachable w) (snapshot w) envs (heap w) (data w) (trace w).

(** The first two tests of line 90, on one envelope: when they hold,
    [update] goes on to evaluate [y_key in entry]. *)
Definition reaches_y_test (x_key : string) (init_sequence : Z) (e : envelope)
  : bool :=
  bool_decide (e.1 > init_sequence) && contains x_key e.2.

(** A plot whose data source has an x column only; one envelope with both
    keys is pending. *)
Definition no_y_scenario : world :=
  World true None [ env 1 [("x", 5); ("y", 50)] ]
        [[JNum 1]] {[ "x" := 0%nat ]} [].

(** A plot that was drawn from other column names; one envelope with both
    keys is pending. *)
Definition no_x_scenario : world :=
  World true None [ env 1 [("x", 5); ("y", 50)] ]
        [[JNum 1]; [JNum 10]] {[ "time" := 0%nat; "loss" := 1%nat ]} [].

(** A plot whose data source has a third column besides x and y. *)
Definition colour_scenario : world :=
  World true None [ env 1 [("x", 5); ("y", 50)] ]
        [[JNum 1]; [JNum 10]; [JStr "red"]]
        {[ "x" := 0%nat; "y" := 1%nat; "colour" := 2%nat ]} [].


(** * Properties *)

Ltac run_M :=
  unfold mbind, M_bind, mret, M_ret, raise, emit; simpl.

Section step.
Context (x_key y_key : string) (init_sequence : Z).

Lemma contains_lookup key (entry : gmap string json) :
  contains key entry = true → ∃ v, entry !! key = Some v.
Proof.
  unfold contains. intros H. apply bool_decide_eq_true in H.
  destruct H as [v Hv]. by exists v.
Qed.

Lemma lookup_contains key (entry : gmap string json) v :
  entry !! key = Some v → contains key entry = true.
Proof. intros H. unfold contains. apply bool_decide_eq_true. by exists v. Qed.

Lemma series_columns w xs ys :
  series w = Some (xs, ys) →
  ∃ lx ly, data w !! "x" = Some lx ∧ heap w !! lx = Some xs
           ∧ data w !! "y" = Some ly ∧ heap w !! ly = Some ys.
Proof.
  unfold series. intros H.
  destruct (data w !! "x") as [lx|] eqn:Hx; simpl in H; [|done].
  destruct (heap w !! lx) as [xs'|] eqn:Hlx; simpl in H; [|done].
  destruct (data w !! "y") as [ly|] eqn:Hy; simpl in H; [|done].
  destruct (heap w !! ly) as [ys'|] eqn:Hly; simpl in H; [|done].
  inversion H; subst. by exists lx, ly.
Qed.

Lemma series_drawn w q xs ys vx vy :
  series (drawn w q xs ys vx vy) = Some (xs ++ [vx], ys ++ [vy]).
Proof.
  unfold series, drawn; simpl.
  rewrite lookup_insert_eq; simpl.
  rewrite lookup_app_l by (rewrite length_app; simpl; lia).
  rewrite list_lookup_middle by done; simpl.
  rewrite lookup_insert_ne by done.
  rewrite lookup_singleton_eq; simpl.
  replace (S (length (heap w))) with (length (heap w ++ [xs ++ [vx]]))
    by (rewrite length_app; simpl; lia).
  by rewrite list_lookup_middle.
Qed.

Lemma series_received w q : series (received w q) = series w.
Proof. done. Qed.


(** An envelope that fails the test is taken and nothing else happens. *)
Lemma update_dropped w e q :
  inbox w = e :: q →
  accepted x_key y_key init_sequence e = false →
  update x_key y_key init_sequence w = (inr (), received w q).
Proof.
  intros Hin Hacc. destruct e as [sequence entry].
  unfold update, recv, next_message. run_M. rewrite Hin.
  unfold accepted in Hacc; simpl in Hacc. by rewrite Hacc.
Qed.

(** An envelope that passes the test adds its point to fresh lists. *)
Lemma update_applied w e q xs ys vx vy :
  inbox w = e :: q →
  series w = Some (xs, ys) →
  e.1 > init_sequence →
  e.2 !! x_key = Some vx →
  e.2 !! y_key = Some vy →
  update x_key y_key init_sequence w = (inr (), drawn w q xs ys vx vy).
Proof.
  intros Hin Hser Hseq Hx Hy. destruct e as [sequence entry]; simpl in *.
  destruct (series_columns _ _ _ Hser) as (lx & ly & Hdx & Hhx & Hdy & Hhy).
  unfold update, recv, next_message. run_M. rewrite Hin.
  rewrite bool_decide_eq_true_2 by done.
  rewrite (lookup_contains _ _ _ Hx), (lookup_contains _ _ _ Hy); simpl.
  unfold column, getitem, new_list, set_data; simpl.
  rewrite Hdx, Hhx, Hx; simpl.
  rewrite Hdy, (lookup_app_l_Some _ _ _ _ Hhy), Hy; simpl.
  unfold drawn. by rewrite length_app, Nat.add_1_r.
Qed.

Lemma accepted_point e :
  accepted x_key y_key init_sequence e = true →
  ∃ vx vy, e.1 > init_sequence ∧ e.2 !! x_key = Some vx
           ∧ e.2 !! y_key = Some vy
           ∧ point x_key y_key init_sequence e = Some (vx, vy).
Proof.
  intros H. unfold point. rewrite H. unfold accepted in H.
  apply andb_true_iff in H as [H Hy]. apply andb_true_iff in H as [Hs Hx].
  apply bool_decide_eq_true in Hs.
  destruct (contains_lookup _ _ Hx) as [vx Hvx].
  destruct (contains_lookup _ _ Hy) as [vy Hvy].
  exists vx, vy. by rewrite Hvx, Hvy.
Qed.

Lemma rejected_point e :
  accepted x_key y_key init_sequence e = false →
  point x_key y_key init_sequence e = None.
Proof. intros H. unfold point. by rewrite H. Qed.
End step.

Section run.
Context (x_key y_key : string) (init_sequence : Z).

Lemma callback_step (cb : M unit) n w :
  add_periodic_callback cb (S n) w =
  match cb w with
  | (inl e, w') => (inl e, w')
  | (inr _, w') => add_periodic_callback cb n w'
  end.
Proof. done. Qed.

(** [ticks] callbacks over pending envelopes [envs]: every one of them is
    taken, and the series grows by the points of the accepted ones. *)
Lemma callbacks_run envs : ∀ w rest xs ys,
  inbox w = envs ++ rest →
  series w = Some (xs, ys) →
  ∃ w',
    add_periodic_callback (update x_key y_key init_sequence) (length envs) w
      = (inr (), w')
    ∧ inbox w' = rest
    ∧ series w' =
        Some (xs ++ (points x_key y_key init_sequence envs).*1,
              ys ++ (points x_key y_key init_sequence envs).*2)
    ∧ heap w `prefix_of` heap w'
    ∧ trace w' = trace w ++ replicate (length envs) EvRecv.
Proof.
  induction envs as [|e envs IH]; intros w rest xs ys Hin Hser.
  - exists w. simpl. rewrite !app_nil_r. done.
  - simpl length. rewrite callback_step.
    destruct (accepted x_key y_key init_sequence e) eqn:Hacc.
    + destruct (accepted_point _ _ _ _ Hacc) as (vx & vy & Hs & Hx & Hy & Hp).
      rewrite (update_applied _ _ _ w e (envs ++ rest) xs ys vx vy)
        by done.
      destruct (IH (drawn w (envs ++ rest) xs ys vx vy) rest
                   (xs ++ [vx]) (ys ++ [vy]) eq_refl
                   (series_drawn _ _ _ _ _ _))
        as (w' & Hrun & Hin' & Hser' & Hpre & Htr).
      exists w'. split; [done|]. split; [done|].
      unfold points in *. simpl. rewrite Hp. simpl.
      rewrite Hser', Htr. simpl. rewrite <- !app_assoc. simpl.
      split; [done|]. split; [|done].
      etrans; [|exact Hpre]. simpl. rewrite <- app_assoc.
      by apply prefix_app_r.
    + rewrite (update_dropped _ _ _ w e (envs ++ rest)) by done.
      destruct (IH (received w (envs ++ rest)) rest xs ys eq_refl Hser)
        as (w' & Hrun & Hin' & Hser' & Hpre & Htr).
      exists w'. split; [done|]. split; [done|].
      unfold points in *. simpl.
      rewrite (rejected_point _ _ _ _ Hacc).
      rewrite Hser', Htr. simpl. rewrite <- !app_assoc. done.
Qed.

(** Envelopes that all fail the test leave the plot as it was. *)
Lemma callbacks_all_dropped envs : ∀ w,
  inbox w = envs →
  Forall (λ e, accepted x_key y_key init_sequence e = false) envs →
  ∃ w',
    add_periodic_callback (update x_key y_key init_sequence) (length envs) w
      = (inr (), w')
    ∧ heap w' = heap w ∧ data w' = data w ∧ inbox w' = [].
Proof.
  induction envs as [|e envs IH]; intros w Hin Hall.
  - by exists w.
  - apply Forall_cons in Hall as [He Hall].
    simpl length. rewrite callback_step.
    rewrite (update_dropped _ _ _ w e envs) by done.
    destruct (IH (received w envs) eq_refl Hall) as (w' & Hrun & Hh & Hd & Hi).
    by exists w'.
Qed.

Lemma stale_not_accepted e :
  e.1 ≤ init_sequence → accepted x_key y_key init_sequence e = false.
Proof.
  intros H. unfold accepted.
  rewrite bool_decide_eq_false_2 by lia. done.
Qed.

Lemma points_fresh_only envs :
  points x_key y_key init_sequence
    (filter (λ e, init_sequence < e.1) envs)
  = points x_key y_key init_sequence envs.
Proof.
  unfold points. induction envs as [|e envs IH]; [done|].
  destruct (decide (init_sequence < e.1)) as [Hlt|Hge].
  - rewrite filter_cons_True by done. simpl.
    destruct (point x_key y_key init_sequence e); [f_equal|]; exact IH.
  - rewrite filter_cons_False by done. simpl.
    rewrite (rejected_point _ _ _ e) by (apply stale_not_accepted; lia).
    exact IH.
Qed.


End run.

(** ** The snapshot loop *)

Section snapshot.
Context (x_key : string) (y_keys : list string).




End snapshot.

(** ** The claims *)

(** C1. Monotonic filter. With threshold [init_sequence], an envelope whose
    sequence number is at most the threshold appends nothing, wherever in the
    live feed it arrives; replaying only such envelopes leaves every list and
    the plot's data untouched; and a feed draws the same series as the feed
    without its envelopes at or below the threshold. *)
Theorem monotonic_filter (x_key y_key : string) (init_sequence : Z) :
  (∀ w (e : envelope) q,
     inbox w = e :: q → e.1 ≤ init_sequence →
     ∃ w', update x_key y_key init_sequence w = (inr (), w')
           ∧ heap w' = heap w ∧ data w' = data w)
  ∧ (∀ w,
       Forall (λ e, e.1 ≤ init_sequence) (inbox w) →
       ∃ w', add_periodic_callback (serve_update x_key y_key init_sequence)
               (length (inbox w)) w = (inr (), w')
             ∧ heap w' = heap w ∧ data w' = data w ∧ inbox w' = [])
  ∧ (∀ xs ys envs,
       series (add_periodic_callback
                 (serve_update x_key y_key init_sequence)
                 (length envs) (session xs ys envs)).2
       = series (add_periodic_callback
                   (serve_update x_key y_key init_sequence)
                   (length (filter (λ e, init_sequence < e.1) envs))
                   (session xs ys (filter (λ e, init_sequence < e.1) envs))).2).
Proof.
  split; [|split].
  - intros w e q Hin Hle. exists (received w q). split; [|done].
    apply (update_dropped _ _ _ w e q Hin). by apply stale_not_accepted.
  - intros w Hall. unfold serve_update.
    apply callbacks_all_dropped; [done|].
    eapply Forall_impl; [exact Hall|]. intros e He.
    by apply stale_not_accepted.
  - intros xs ys envs. unfold serve_update.
    set (fresh := filter (λ e, init_sequence < e.1) envs).
    destruct (callbacks_run x_key y_key init_sequence envs
                (session xs ys envs) [] xs ys
                (eq_sym (app_nil_r envs)) eq_refl)
      as (w1 & -> & _ & Hs1 & _).
    destruct (callbacks_run x_key y_key init_sequence fresh
                (session xs ys fresh) [] xs ys
                (eq_sym (app_nil_r fresh)) eq_refl)
      as (w2 & -> & _ & Hs2 & _).
    simpl. rewrite Hs1, Hs2. unfold fresh. by rewrite points_fresh_only.
Qed.

Lemma monotonic_filter_witness :
  (∃ w', update "x" "y" 5 duplicate_scenario = (inr (), w')
         ∧ heap w' = heap duplicate_scenario
         ∧ data w' = data duplicate_scenario)
  ∧ (∃ w', add_periodic_callback (serve_update "x" "y" 5)
             (length (inbox replay_scenario)) replay_scenario = (inr (), w')
           ∧ heap w' = heap replay_scenario
           ∧ data w' = data replay_scenario
           ∧ inbox w' = []).
Proof.
  split.
  - apply (proj1 (monotonic_filter "x" "y" 5) duplicate_scenario
             (env 3 [("x", 2); ("y", 20)])
             [env 6 [("x", 3); ("y", 30)]; env 6 [("x", 3); ("y", 30)]]);
      [reflexivity | simpl; lia].
  - apply (proj1 (proj2 (monotonic_filter "x" "y" 5)) replay_scenario).
    simpl. repeat constructor; simpl; lia.
Defined.

(** C8. One envelope per step. Whatever the outcome of a call of [update]
    (applied, dropped, or an exception), the call has issued exactly one
    receive and has taken exactly the first pending envelope, if there is
    one, off the live channel. *)
Theorem one_envelope_per_step (x_key y_key : string) (init_sequence : Z)
    (w : world) :
  trace (update x_key y_key init_sequence w).2 = trace w ++ [EvRecv]
  ∧ inbox (update x_key y_key init_sequence w).2 = tail (inbox w).
Proof.
  unfold update, recv, next_message. run_M.
  destruct (inbox w) as [|[sequence entry] q]; [done|].
  destruct (bool_decide (sequence > init_sequence)
            && contains x_key entry && contains y_key entry); [|done].
  unfold column, getitem, new_list, set_data; simpl.
  destruct (data w !! "x") as [lx|]; [|done].
  destruct (heap w !! lx) as [xs|]; [|done].
  destruct (entry !! x_key) as [vx|]; [|done]. simpl.
  destruct (data w !! "y") as [ly|]; [|done].
  destruct ((heap w ++ [xs ++ [vx]]) !! ly) as [ys|]; [|done].
  destruct (entry !! y_key) as [vy|]; done.
Qed.




(** C2, as stated: the second delivery of the [seq = 6] envelope would be
    dropped and the series would end as [x = [1,2,3]], [y = [10,20,30]].
    [update] compares with the snapshot's sequence number 5 each time, so the
    duplicate is drawn as well. *)
Lemma duplicate_scenario_counterexample :
  series (add_periodic_callback (serve_update "x" "y" 5) 3
            duplicate_scenario).2
  ≠ Some ([JNum 1; JNum 2; JNum 3], [JNum 10; JNum 20; JNum 30]).
Proof. vm_compute. discriminate. Qed.

(** C2, amended. A live envelope above the threshold that has both keys is
    drawn at every delivery, a duplicate included. In the scenario the
    [seq = 3] envelope is dropped and both [seq = 6] deliveries are drawn:
    the series ends as [x = [1,2,3,3]], [y = [10,20,30,30]]. *)
Theorem duplicate_applied_each_time :
  (∀ x_key y_key init_sequence w (e : envelope) q xs ys vx vy,
     inbox w = e :: e :: q →
     series w = Some (xs, ys) →
     e.1 > init_sequence →
     e.2 !! x_key = Some vx →
     e.2 !! y_key = Some vy →
     ∃ w', add_periodic_callback (serve_update x_key y_key init_sequence) 2 w
             = (inr (), w')
           ∧ series w' = Some (xs ++ [vx; vx], ys ++ [vy; vy])
           ∧ inbox w' = q)
  ∧ (∃ w', add_periodic_callback (serve_update "x" "y" 5) 3 duplicate_scenario
             = (inr (), w')
           ∧ series w' = Some ([JNum 1; JNum 2; JNum 3; JNum 3],
                               [JNum 10; JNum 20; JNum 30; JNum 30])
           ∧ inbox w' = []).
Proof.
  split.
  - intros x_key y_key init_sequence w e q xs ys vx vy Hin Hser Hs Hx Hy.
    unfold serve_update. rewrite callback_step.
    rewrite (update_applied _ _ _ w e (e :: q) xs ys vx vy) by done.
    rewrite callback_step.
    rewrite (update_applied _ _ _ _ e q (xs ++ [vx]) (ys ++ [vy]) vx vy);
      [|done|apply series_drawn|done..].
    eexists. split; [done|]. rewrite series_drawn.
    by rewrite <- !app_assoc.
  - eexists. split; [vm_compute; reflexivity|]. split; reflexivity.
Qed.

Lemma duplicate_applied_each_time_witness :
  ∃ w', add_periodic_callback (serve_update "x" "y" 0) 2
          (session [] [] [env 1 [("x", 5); ("y", 50)];
                          env 1 [("x", 5); ("y", 50)]])
        = (inr (), w')
        ∧ series w' = Some ([] ++ [JNum 5; JNum 5], [] ++ [JNum 50; JNum 50])
        ∧ inbox w' = [].
Proof.
  apply (proj1 duplicate_applied_each_time "x" "y" 0
           (session [] [] [env 1 [("x", 5); ("y", 50)];
                           env 1 [("x", 5); ("y", 50)]])
           (env 1 [("x", 5); ("y", 50)]) [] [] []);
    first [reflexivity | simpl; lia].
Defined.

(** C3, as stated: after an envelope above the threshold that lacks a key,
    an envelope delivered later with that same sequence number would be
    dropped. [update] records no sequence number: the later envelope, which
    has both keys, is drawn. *)
Lemma resend_scenario_counterexample :
  series (add_periodic_callback (serve_update "x" "y" 0) 1
            resend_scenario).2 = Some ([], [])
  ∧ series (add_periodic_callback (serve_update "x" "y" 0) 2
              resend_scenario).2 = Some ([JNum 5], [JNum 50]).
Proof. split; vm_compute; reflexivity. Qed.

(** C3, amended. An envelope that lacks the x-key or the y-key appends
    nothing; delivered again it is dropped again, because it still lacks the
    key; and the threshold is not moved: the rest of the feed is drawn
    exactly as if that envelope had never been delivered. *)
Theorem malformed_envelope_dropped (x_key y_key : string) (init_sequence : Z) :
  (∀ w (e : envelope) q,
     inbox w = e :: q →
     contains x_key e.2 && contains y_key e.2 = false →
     ∃ w', update x_key y_key init_sequence w = (inr (), w')
           ∧ heap w' = heap w ∧ data w' = data w ∧ inbox w' = q)
  ∧ (∀ w (e : envelope) q,
       inbox w = e :: e :: q →
       contains x_key e.2 && contains y_key e.2 = false →
       ∃ w', add_periodic_callback (serve_update x_key y_key init_sequence) 2 w
               = (inr (), w')
             ∧ heap w' = heap w ∧ data w' = data w ∧ inbox w' = q)
  ∧ (∀ xs ys (e : envelope) (envs : list envelope),
       contains x_key e.2 && contains y_key e.2 = false →
       series (add_periodic_callback
                 (serve_update x_key y_key init_sequence)
                 (length (e :: envs)) (session xs ys (e :: envs))).2
       = series (add_periodic_callback
                   (serve_update x_key y_key init_sequence)
                   (length envs) (session xs ys envs)).2).
Proof.
  assert (Hrej : ∀ e : envelope,
            contains x_key e.2 && contains y_key e.2 = false →
            accepted x_key y_key init_sequence e = false).
  { intros e H. unfold accepted. rewrite <- andb_assoc, H.
    apply andb_false_r. }
  split; [|split].
  - intros w e q Hin Hmiss. exists (received w q). split; [|done].
    apply (update_dropped _ _ _ w e q Hin). by apply Hrej.
  - intros w e q Hin Hmiss. unfold serve_update.
    rewrite callback_step.
    rewrite (update_dropped _ _ _ w e (e :: q) Hin) by by apply Hrej.
    rewrite callback_step.
    rewrite (update_dropped _ _ _ (received w (e :: q)) e q eq_refl)
      by by apply Hrej.
    by eexists.
  - intros xs ys e envs Hmiss. unfold serve_update.
    destruct (callbacks_run x_key y_key init_sequence (e :: envs)
                (session xs ys (e :: envs)) [] xs ys
                (eq_sym (app_nil_r (e :: envs))) eq_refl)
      as (w1 & -> & _ & Hs1 & _).
    destruct (callbacks_run x_key y_key init_sequence envs
                (session xs ys envs) [] xs ys
                (eq_sym (app_nil_r envs)) eq_refl)
      as (w2 & -> & _ & Hs2 & _).
    simpl. rewrite Hs1, Hs2. unfold points. simpl.
    by rewrite (rejected_point _ _ _ e (Hrej e Hmiss)).
Qed.

Lemma malformed_envelope_dropped_witness :
  (∃ w', update "x" "y" 0 resend_scenario = (inr (), w')
         ∧ heap w' = heap resend_scenario
         ∧ data w' = data resend_scenario
         ∧ inbox w' = [env 1 [("x", 5); ("y", 50)]])
  ∧ (∃ w', add_periodic_callback (serve_update "x" "y" 0) 2
             (session [] [] [env 1 [("x", 5)]; env 1 [("x", 5)]])
           = (inr (), w')
           ∧ heap w' = [[]; []]
           ∧ data w' = data resend_scenario
           ∧ inbox w' = [])
  ∧ series (add_periodic_callback (serve_update "x" "y" 0)
              (length (env 1 [("x", 5)] :: [env 1 [("x", 5); ("y", 50)]]))
              (session [] []
                 (env 1 [("x", 5)] :: [env 1 [("x", 5); ("y", 50)]]))).2
    = series (add_periodic_callback (serve_update "x" "y" 0)
                (length [env 1 [("x", 5); ("y", 50)]])
                (session [] [] [env 1 [("x", 5); ("y", 50)]])).2.
Proof.
  split; [|split].
  - apply (proj1 (malformed_envelope_dropped "x" "y" 0) resend_scenario
             (env 1 [("x", 5)]) [env 1 [("x", 5); ("y", 50)]]);
      reflexivity.
  - apply (proj1 (proj2 (malformed_envelope_dropped "x" "y" 0))
             (session [] [] [env 1 [("x", 5)]; env 1 [("x", 5)]])
             (env 1 [("x", 5)]) []);
      reflexivity.
  - apply (proj2 (proj2 (malformed_envelope_dropped "x" "y" 0)) [] []
             (env 1 [("x", 5)]) [env 1 [("x", 5); ("y", 50)]]).
    reflexivity.
Defined.



(** C6. Append-only. Applying an envelope makes the series the old one
    followed by the one projected pair; every list object that existed keeps
    its contents, and the columns of the new series are objects that did not
    exist before. Dropping an envelope leaves the lists and the plot's data
    as they were. *)
Theorem append_only (x_key y_key : string) (init_sequence : Z) :
  (∀ w (e : envelope) q xs ys vx vy,
     inbox w = e :: q →
     series w = Some (xs, ys) →
     e.1 > init_sequence →
     e.2 !! x_key = Some vx →
     e.2 !! y_key = Some vy →
     ∃ w', update x_key y_key init_sequence w = (inr (), w')
           ∧ series w' = Some (xs ++ [vx], ys ++ [vy])
           ∧ (∀ l v, heap w !! l = Some v → heap w' !! l = Some v)
           ∧ (∀ col l, data w' !! col = Some l → heap w !! l = None))
  ∧ (∀ w (e : envelope) q,
       inbox w = e :: q →
       accepted x_key y_key init_sequence e = false →
       ∃ w', update x_key y_key init_sequence w = (inr (), w')
             ∧ heap w' = heap w ∧ data w' = data w).
Proof.
  split.
  - intros w e q xs ys vx vy Hin Hser Hs Hx Hy.
    exists (drawn w q xs ys vx vy). split; [by apply (update_applied _ _ _ w e q)|].
    split; [apply series_drawn|]. split.
    + intros l v Hl. unfold drawn; simpl.
      apply lookup_app_l_Some. by apply lookup_app_l_Some.
    + intros col l. unfold drawn; simpl. intros Hcol.
      apply lookup_ge_None.
      destruct (decide (col = "x")) as [->|Hnx].
      * rewrite lookup_insert_eq in Hcol. inversion Hcol. lia.
      * rewrite lookup_insert_ne in Hcol by done.
        apply lookup_singleton_Some in Hcol as [_ <-]. lia.
  - intros w e q Hin Hacc. exists (received w q). split; [|done].
    by apply (update_dropped _ _ _ w e q).
Qed.

Lemma append_only_witness :
  (∃ w', update "x" "y" 0 fresh_scenario = (inr (), w')
         ∧ series w' = Some ([] ++ [JNum 5], [] ++ [JNum 50])
         ∧ (∀ l v, heap fresh_scenario !! l = Some v → heap w' !! l = Some v)
         ∧ (∀ col l, data w' !! col = Some l
                     → heap fresh_scenario !! l = None))
  ∧ (∃ w', update "x" "y" 5 duplicate_scenario = (inr (), w')
           ∧ heap w' = heap duplicate_scenario
           ∧ data w' = data duplicate_scenario).
Proof.
  split.
  - apply (proj1 (append_only "x" "y" 0) fresh_scenario
             (env 1 [("x", 5); ("y", 50)]) [] [] []);
      first [reflexivity | simpl; lia].
  - apply (proj2 (append_only "x" "y" 5) duplicate_scenario
             (env 3 [("x", 2); ("y", 20)])
             [env 6 [("x", 3); ("y", 30)]; env 6 [("x", 3); ("y", 30)]]);
      reflexivity.
Defined.

(** *** The compiler on line 56 *)

(** Each half of the call's arguments is accepted by itself: the keyword
    argument [key=[]], and the generator expression [[] for key in y_keys]. *)
Lemma keyword_argument_accepted :
  call_arguments [NAME "key"; EQUAL; LSQB; RSQB]
  = inr [Keyword "key" EmptyList].
Proof. reflexivity. Qed.

Lemma generator_argument_accepted :
  call_arguments [LSQB; RSQB; FOR; NAME "key"; IN; NAME "y_keys"]
  = inr [Generator EmptyList "key" (Name "y_keys")].
Proof. reflexivity. Qed.

(** A keyword argument that is followed by [for] is refused, whatever the
    names, the value and the rest of the line. *)
Lemma keyword_then_for_refused id ts e rest :
  parse_test ts = Some (e, FOR :: rest) →
  call_arguments (NAME id :: EQUAL :: ts) = inl SyntaxError.
Proof.
  intros H. unfold call_arguments.
  change (length (NAME id :: EQUAL :: ts)) with (S (S (length ts))).
  cbn [parse_arglist]. unfold parse_argument. cbn [parse_test].
  by rewrite H.
Qed.

Lemma line_56_refused : call_arguments line_56 = inl SyntaxError.
Proof.
  exact (keyword_then_for_refused "key" [LSQB; RSQB; FOR; NAME "key"; IN;
                                         NAME "y_keys"]
           EmptyList [NAME "key"; IN; NAME "y_keys"] eq_refl).
Qed.

(** The import ends in the [SyntaxError], before any statement has run. *)
Lemma import_plot_fails w : import_plot w = (inl SyntaxError, w).
Proof. unfold import_plot. by rewrite line_56_refused. Qed.

Lemma get_socket_fails body (x_key y_key host : string)
    (push_port router_port : Z) (persistent : bool) (w : world) :
  get_socket body x_key y_key host push_port router_port persistent w
  = (inl SyntaxError, w).
Proof.
  unfold get_socket. cbv [mbind M_bind]. by rewrite import_plot_fails.
Qed.

(** C9, as stated: a call of [get_socket] would end in the [NameError] for
    [y_keys], raised while the y mapping is built. The call ends earlier and
    otherwise: in the [SyntaxError] of the import. Even for a body that would
    create the context, connect and return the documented tuple, no statement
    of the body has run. *)
Lemma get_socket_nameerror_counterexample :
  (get_socket
     (λ _ _ host push_port _ _,
        zmq_Context;; connect host push_port;; mret (0, [], ∅))
     "x" "y" "localhost" 5557 5556 true fresh_scenario).1
  ≠ inl (NameError "y_keys")
  ∧ trace
      (get_socket
         (λ _ _ host push_port _ _,
            zmq_Context;; connect host push_port;; mret (0, [], ∅))
         "x" "y" "localhost" 5557 5556 true fresh_scenario).2
    = [].
Proof. rewrite get_socket_fails. by split. Qed.

(** C9, amended. For every combination of arguments and whatever the body
    of [get_socket] would do, a call of [get_socket] ends in the
    [SyntaxError] that the compiler raises for line 56 when the module is
    imported: no statement of the body runs, the world is as it was, and the
    call never returns the documented tuple. *)
Theorem get_socket_never_entered
    (get_socket_body :
       string → string → string → Z → Z → bool →
       M (Z * list json * gmap string (list json)))
    (x_key y_key host : string) (push_port router_port : Z)
    (persistent : bool) (w : world) :
  get_socket get_socket_body x_key y_key host push_port router_port
    persistent w
  = (inl SyntaxError, w)
  ∧ ∀ r, (get_socket get_socket_body x_key y_key host push_port router_port
            persistent w).1 ≠ inr r.
Proof. rewrite get_socket_fails. by split. Qed.

(** C7. At [persistent = False] the docstring promises sequence number 0 and
    empty lists. Whatever the body would do, the call returns nothing: it
    ends in the [SyntaxError] of the import, with the world as it was, so
    that no snapshot was requested either. [update] itself, given the
    threshold 0 and an empty plot, draws the first envelope [seq = 1]. *)
Theorem get_socket_not_persistent
    (get_socket_body :
       string → string → string → Z → Z → bool →
       M (Z * list json * gmap string (list json)))
    (x_key y_key host : string) (push_port router_port : Z) (w : world) :
  get_socket get_socket_body x_key y_key host push_port router_port false w
  = (inl SyntaxError, w)
  ∧ series (update "x" "y" 0 fresh_scenario).2 = Some ([JNum 5], [JNum 50]).
Proof. split; [apply get_socket_fails|]. vm_compute. reflexivity. Qed.

(** *** [update] with a list for [y_key] *)

Section list_key.
Context (x_key : string) (y_keys : list string) (sequence : Z).

(** With a str for [y_key], [update_arg] is [update]. *)
Lemma update_arg_str y_key w :
  update_arg x_key (KeyStr y_key) sequence w = update x_key y_key sequence w.
Proof.
  unfold update_arg, update, recv, next_message, contains_arg, getitem_arg.
  run_M. destruct (inbox w) as [|[seq entry] q]; [done|].
  destruct (bool_decide (seq > sequence)); [|done].
  destruct (contains x_key entry); [|done]. simpl.
  by destruct (contains y_key entry).
Qed.

(** An envelope that fails one of the first two tests is taken and nothing
    else happens. *)
Lemma update_list_skipped w (e : envelope) q :
  inbox w = e :: q →
  reaches_y_test x_key sequence e = false →
  update_arg x_key (KeyList y_keys) sequence w = (inr (), received w q).
Proof.
  intros Hin Ht. destruct e as [seq entry].
  unfold update_arg, recv, next_message. run_M. rewrite Hin.
  unfold reaches_y_test in Ht; simpl in Ht. by rewrite Ht.
Qed.

(** An envelope that passes them has the list hashed. *)
Lemma update_list_raises w (e : envelope) q :
  inbox w = e :: q →
  reaches_y_test x_key sequence e = true →
  update_arg x_key (KeyList y_keys) sequence w = (inl TypeError, received w q).
Proof.
  intros Hin Ht. destruct e as [seq entry].
  unfold update_arg, recv, next_message. run_M. rewrite Hin.
  unfold reaches_y_test in Ht; simpl in Ht. by rewrite Ht.
Qed.

Lemma notebook_loop_step n w :
  notebook_loop x_key y_keys sequence (S n) w =
  match update_arg x_key (KeyList y_keys) sequence w with
  | (inl e, w') => (inl e, w')
  | (inr _, w') => notebook_loop x_key y_keys sequence n w'
  end.
Proof.
  simpl. run_M.
  by destruct (update_arg x_key (KeyList y_keys) sequence w) as [[e|[]] w'].
Qed.

Lemma notebook_loop_skips (envs : list envelope) : ∀ w rest,
  inbox w = envs ++ rest →
  Forall (λ e, reaches_y_test x_key sequence e = false) envs →
  ∃ w', notebook_loop x_key y_keys sequence (length envs) w = (inr (), w')
        ∧ inbox w' = rest ∧ heap w' = heap w ∧ data w' = data w.
Proof.
  induction envs as [|e envs IH]; intros w rest Hin Hall.
  - by exists w.
  - apply Forall_cons in Hall as [He Hall].
    change (length (e :: envs)) with (S (length envs)).
    rewrite notebook_loop_step.
    rewrite (update_list_skipped w e (envs ++ rest)) by done.
    apply (IH (received w (envs ++ rest)) rest eq_refl Hall).
Qed.

Lemma notebook_loop_raises (pre : list envelope) (e : envelope) n :
  ∀ w rest,
  inbox w = pre ++ e :: rest →
  Forall (λ e, reaches_y_test x_key sequence e = false) pre →
  reaches_y_test x_key sequence e = true →
  ∃ w', notebook_loop x_key y_keys sequence (length pre + S n) w
        = (inl TypeError, w')
        ∧ inbox w' = rest ∧ heap w' = heap w ∧ data w' = data w.
Proof.
  induction pre as [|e0 pre IH]; intros w rest Hin Hall He.
  - change (length [] + S n)%nat with (S n). rewrite notebook_loop_step.
    rewrite (update_list_raises w e rest) by done. by eexists.
  - apply Forall_cons in Hall as [He0 Hall].
    change (length (e0 :: pre) + S n)%nat with (S (length pre + S n)).
    rewrite notebook_loop_step.
    rewrite (update_list_skipped w e0 (pre ++ e :: rest)) by done.
    apply (IH (received w (pre ++ e :: rest)) rest eq_refl Hall He).
Qed.
End list_key.

(** C10. The threshold is fixed. Both driving loops hand the same
    [sequence] to every call of [update]. With the periodic callback, after
    any number of calls the series is the initial one followed by the points
    of exactly those envelopes that pass the test against that initial
    sequence number, whatever was drawn or dropped before them. The
    notebook's loop passes its list [y_keys] for [y_key]: every envelope is
    again tested against that same initial sequence number, whatever was
    received before it; the envelopes at or below it, and those without the
    x-key, are skipped, and the first envelope above it that has the x-key
    ends the loop in the [TypeError] of [y_key in entry]. The plot is not
    touched. *)
Theorem threshold_fixed (x_key : string) (sequence : Z) :
  (∀ y_key w (envs rest : list envelope) xs ys,
     inbox w = envs ++ rest →
     series w = Some (xs, ys) →
     ∃ w', add_periodic_callback (serve_update x_key y_key sequence)
             (length envs) w = (inr (), w')
           ∧ inbox w' = rest
           ∧ series w' = Some (xs ++ (points x_key y_key sequence envs).*1,
                               ys ++ (points x_key y_key sequence envs).*2))
  ∧ (∀ y_keys w (envs rest : list envelope),
       inbox w = envs ++ rest →
       Forall (λ e, reaches_y_test x_key sequence e = false) envs →
       ∃ w', notebook_loop x_key y_keys sequence (length envs) w
             = (inr (), w')
             ∧ inbox w' = rest ∧ heap w' = heap w ∧ data w' = data w)
  ∧ (∀ y_keys w (pre : list envelope) (e : envelope) rest n,
       inbox w = pre ++ e :: rest →
       Forall (λ e, reaches_y_test x_key sequence e = false) pre →
       reaches_y_test x_key sequence e = true →
       ∃ w', notebook_loop x_key y_keys sequence (length pre + S n) w
             = (inl TypeError, w')
             ∧ inbox w' = rest ∧ heap w' = heap w ∧ data w' = data w).
Proof.
  split; [|split].
  - intros y_key w envs rest xs ys Hin Hser.
    destruct (callbacks_run x_key y_key sequence envs w rest xs ys Hin Hser)
      as (w' & Hrun & Hin' & Hser' & _).
    by exists w'.
  - intros y_keys w envs rest. apply notebook_loop_skips.
  - intros y_keys w pre e rest n. apply notebook_loop_raises.
Qed.

Lemma threshold_fixed_witness :
  (∃ w', add_periodic_callback (serve_update "x" "y" 5) 3 duplicate_scenario
         = (inr (), w')
         ∧ inbox w' = []
         ∧ series w' =
             Some ([JNum 1; JNum 2]
                   ++ (points "x" "y" 5 (inbox duplicate_scenario)).*1,
                   [JNum 10; JNum 20]
                   ++ (points "x" "y" 5 (inbox duplicate_scenario)).*2))
  ∧ (∃ w', notebook_loop "x" ["y"] 5 (length (inbox replay_scenario))
             replay_scenario = (inr (), w')
           ∧ inbox w' = []
           ∧ heap w' = heap replay_scenario
           ∧ data w' = data replay_scenario)
  ∧ (∃ w', notebook_loop "x" ["y"] 5
             (length [env 3 [("x", 2); ("y", 20)]] + 1) duplicate_scenario
           = (inl TypeError, w')
           ∧ inbox w' = [env 6 [("x", 3); ("y", 30)]]
           ∧ heap w' = heap duplicate_scenario
           ∧ data w' = data duplicate_scenario).
Proof.
  split; [|split].
  - apply (proj1 (threshold_fixed "x" 5) "y" duplicate_scenario
             (inbox duplicate_scenario) []
             [JNum 1; JNum 2] [JNum 10; JNum 20]);
      reflexivity.
  - apply (proj1 (proj2 (threshold_fixed "x" 5)) ["y"] replay_scenario
             (inbox replay_scenario) []); [reflexivity|].
    simpl. repeat constructor.
  - apply (proj2 (proj2 (threshold_fixed "x" 5)) ["y"] duplicate_scenario
             [env 3 [("x", 2); ("y", 20)]] (env 6 [("x", 3); ("y", 30)])
             [env 6 [("x", 3); ("y", 30)]] 0%nat);
      [reflexivity | repeat constructor | reflexivity].
Defined.

(** ** Further properties of [update] *)

Section more_step.
Context (x_key y_key : string) (init_sequence : Z).

Lemma points_cons_accepted (e : envelope) envs p :
  point x_key y_key init_sequence e = Some p →
  points x_key y_key init_sequence (e :: envs)
  = p :: points x_key y_key init_sequence envs.
Proof. intros H. unfold points. simpl. by rewrite H. Qed.

Lemma points_cons_rejected (e : envelope) envs :
  point x_key y_key init_sequence e = None →
  points x_key y_key init_sequence (e :: envs)
  = points x_key y_key init_sequence envs.
Proof. intros H. unfold points. simpl. by rewrite H. Qed.

Lemma heap_drawn w q xs ys vx vy :
  length (heap (drawn w q xs ys vx vy)) = (length (heap w) + 2)%nat.
Proof. unfold drawn; simpl. rewrite !length_app. simpl. lia. Qed.

Lemma callbacks_heap (envs : list envelope) : ∀ w rest xs ys,
  inbox w = envs ++ rest →
  series w = Some (xs, ys) →
  length (heap (add_periodic_callback (update x_key y_key init_sequence)
                  (length envs) w).2)
  = (length (heap w) + 2 * length (points x_key y_key init_sequence envs))%nat.
Proof.
  induction envs as [|e envs IH]; intros w rest xs ys Hin Hser.
  - simpl. lia.
  - change (length (e :: envs)) with (S (length envs)).
    rewrite callback_step.
    destruct (accepted x_key y_key init_sequence e) eqn:Hacc.
    + destruct (accepted_point _ _ _ _ Hacc) as (vx & vy & Hs & Hx & Hy & Hp).
      rewrite (update_applied _ _ _ w e (envs ++ rest) xs ys vx vy) by done.
      rewrite (IH (drawn w (envs ++ rest) xs ys vx vy) rest
                  (xs ++ [vx]) (ys ++ [vy]) eq_refl (series_drawn _ _ _ _ _ _)).
      rewrite heap_drawn, (points_cons_accepted _ _ _ Hp). simpl. lia.
    + rewrite (update_dropped _ _ _ w e (envs ++ rest)) by done.
      rewrite (IH (received w (envs ++ rest)) rest xs ys eq_refl Hser).
      by rewrite (points_cons_rejected _ _ (rejected_point _ _ _ _ Hacc)).
Qed.
End more_step.

(** X1. A call of [update] that ends in an exception has not touched the
    plot: the data source holds the dictionary it held before the call, and
    every list object that existed is still there with its contents. The
    assignment to [plot.data_source.data] is the last step, so no point is
    ever half drawn. *)
Theorem update_exception_atomic (x_key y_key : string) (init_sequence : Z)
    (w : world) (ex : exn) :
  (update x_key y_key init_sequence w).1 = inl ex →
  data (update x_key y_key init_sequence w).2 = data w
  ∧ heap w `prefix_of` heap (update x_key y_key init_sequence w).2.
Proof.
  unfold update, recv, next_message. run_M.
  destruct (inbox w) as [|[sequence entry] q]; [done|].
  destruct (bool_decide (sequence > init_sequence)
            && contains x_key entry && contains y_key entry); [|done].
  unfold column, getitem, new_list, set_data; simpl.
  destruct (data w !! "x") as [lx|]; [|done].
  destruct (heap w !! lx) as [xs|]; [|done].
  destruct (entry !! x_key) as [vx|]; [|done]. simpl.
  destruct (data w !! "y") as [ly|]; [|by split; [|apply prefix_app_r]].
  destruct ((heap w ++ [xs ++ [vx]]) !! ly) as [ys|];
    [|by split; [|apply prefix_app_r]].
  destruct (entry !! y_key) as [vy|]; [done|].
  by split; [|apply prefix_app_r].
Qed.

Lemma update_exception_atomic_witness :
  data (update "x" "y" 0 no_y_scenario).2 = data no_y_scenario
  ∧ heap no_y_scenario `prefix_of` heap (update "x" "y" 0 no_y_scenario).2.
Proof.
  apply (update_exception_atomic "x" "y" 0 no_y_scenario (KeyError "y")).
  reflexivity.
Defined.

(** X2. The [KeyError]s of [update]. For an envelope that passes the test, a
    data source without an x column raises [KeyError] for [x] after the
    envelope was taken; one with an x column and no y column raises it for
    [y], after the new x list was built and with the data left as it was. And
    these are the only ones: a [KeyError] raised by [update] names the column
    x or y that the data source lacks, never a key of the entry, whose
    lookups the membership tests guard. *)
Theorem update_keyerror (x_key y_key : string) (init_sequence : Z) :
  (∀ w (e : envelope) q,
     inbox w = e :: q →
     accepted x_key y_key init_sequence e = true →
     data w !! "x" = None →
     update x_key y_key init_sequence w = (inl (KeyError "x"), received w q))
  ∧ (∀ w (e : envelope) q lx xs vx,
       inbox w = e :: q →
       accepted x_key y_key init_sequence e = true →
       data w !! "x" = Some lx →
       heap w !! lx = Some xs →
       e.2 !! x_key = Some vx →
       data w !! "y" = None →
       update x_key y_key init_sequence w
       = (inl (KeyError "y"),
          World (reachable w) (snapshot w) q (heap w ++ [xs ++ [vx]])
                (data w) (trace w ++ [EvRecv])))
  ∧ (∀ w key,
       (update x_key y_key init_sequence w).1 = inl (KeyError key) →
       (key = "x" ∨ key = "y") ∧ data w !! key = None).
Proof.
  split; [|split].
  - intros w [sequence entry] q Hin Hacc Hx.
    unfold update, recv, next_message. run_M. rewrite Hin.
    unfold accepted in Hacc. simpl in Hacc. rewrite Hacc.
    unfold column; simpl. by rewrite Hx.
  - intros w [sequence entry] q lx xs vx Hin Hacc Hx Hlx Hvx Hy.
    unfold update, recv, next_message. run_M. rewrite Hin.
    unfold accepted in Hacc. simpl in Hacc, Hvx. rewrite Hacc.
    unfold column, getitem, new_list; simpl.
    rewrite Hx, Hlx, Hvx; simpl. by rewrite Hy.
  - intros w key.
    unfold update, recv, next_message. run_M.
    destruct (inbox w) as [|[sequence entry] q]; [done|].
    destruct (bool_decide (sequence > init_sequence)); [|done].
    destruct (contains x_key entry) eqn:Hcx; [|done].
    destruct (contains y_key entry) eqn:Hcy; [|done]. simpl.
    destruct (contains_lookup _ _ Hcx) as [vx Hvx].
    destruct (contains_lookup _ _ Hcy) as [vy Hvy].
    unfold column, getitem, new_list, set_data; simpl.
    destruct (data w !! "x") as [lx|] eqn:Hx;
      [|intros [= <-]; by split; [left|]].
    destruct (heap w !! lx) as [xs|]; [|done].
    rewrite Hvx. simpl.
    destruct (data w !! "y") as [ly|] eqn:Hy;
      [|intros [= <-]; by split; [right|]].
    destruct ((heap w ++ [xs ++ [vx]]) !! ly) as [ys|]; [|done].
    by rewrite Hvy.
Qed.

Lemma update_keyerror_witness :
  update "x" "y" 0 no_x_scenario
  = (inl (KeyError "x"), received no_x_scenario [])
  ∧ update "x" "y" 0 no_y_scenario
    = (inl (KeyError "y"),
       World true None [] ([[JNum 1]] ++ [[JNum 1] ++ [JNum 5]])
             (data no_y_scenario) ([] ++ [EvRecv]))
  ∧ (("y" = "x" ∨ "y" = "y") ∧ data no_y_scenario !! "y" = None).
Proof.
  split; [|split].
  - apply (proj1 (update_keyerror "x" "y" 0) no_x_scenario
             (env 1 [("x", 5); ("y", 50)]) []); reflexivity.
  - apply (proj1 (proj2 (update_keyerror "x" "y" 0)) no_y_scenario
             (env 1 [("x", 5); ("y", 50)]) [] 0%nat [JNum 1] (JNum 5));
      reflexivity.
  - apply (proj2 (proj2 (update_keyerror "x" "y" 0)) no_y_scenario "y").
    reflexivity.
Defined.

(** X3. An envelope that is drawn replaces the data dictionary as a whole:
    afterwards the data source has the columns x and y and no other, whatever
    columns it had before. *)
Theorem update_replaces_data (x_key y_key : string) (init_sequence : Z)
    (w : world) (e : envelope) (q : list envelope) (xs ys : list json) :
  inbox w = e :: q →
  series w = Some (xs, ys) →
  accepted x_key y_key init_sequence e = true →
  ∀ col, is_Some (data (update x_key y_key init_sequence w).2 !! col)
         ↔ col = "x" ∨ col = "y".
Proof.
  intros Hin Hser Hacc col.
  destruct (accepted_point _ _ _ _ Hacc) as (vx & vy & Hs & Hx & Hy & _).
  rewrite (update_applied _ _ _ w e q xs ys vx vy) by done.
  unfold drawn; simpl. split.
  - intros [l Hl].
    destruct (decide (col = "x")) as [->|Hnx]; [by left|].
    rewrite lookup_insert_ne in Hl by done.
    apply lookup_singleton_Some in Hl as [<- _]. by right.
  - intros [->| ->].
    + by rewrite lookup_insert_eq.
    + rewrite lookup_insert_ne by done. by rewrite lookup_singleton_eq.
Qed.

Lemma update_replaces_data_witness :
  is_Some (data (update "x" "y" 0 colour_scenario).2 !! "colour")
  ↔ "colour" = "x" ∨ "colour" = "y".
Proof.
  apply (update_replaces_data "x" "y" 0 colour_scenario
           (env 1 [("x", 5); ("y", 50)]) [] [JNum 1] [JNum 10]);
    reflexivity.
Defined.

(** X4. Every drawn point copies both columns. After the callbacks have
    taken the pending envelopes [envs], the heap holds two list objects more
    for each point drawn, and none for an envelope that was dropped. *)
Theorem callbacks_allocate (x_key y_key : string) (init_sequence : Z)
    (w : world) (envs rest : list envelope) (xs ys : list json) :
  inbox w = envs ++ rest →
  series w = Some (xs, ys) →
  length (heap (add_periodic_callback
                  (serve_update x_key y_key init_sequence)
                  (length envs) w).2)
  = (length (heap w)
     + 2 * length (points x_key y_key init_sequence envs))%nat.
Proof. unfold serve_update. apply callbacks_heap. Qed.

Lemma callbacks_allocate_witness :
  length (heap (add_periodic_callback (serve_update "x" "y" 5)
                  (length (inbox duplicate_scenario)) duplicate_scenario).2)
  = (length (heap duplicate_scenario)
     + 2 * length (points "x" "y" 5 (inbox duplicate_scenario)))%nat.
Proof.
  apply (callbacks_allocate "x" "y" 5 duplicate_scenario
           (inbox duplicate_scenario) []
           [JNum 1; JNum 2] [JNum 10; JNum 20]);
    reflexivity.
Defined.

(** X5. Of an envelope, [update] reads the sequence number and the two
    fields [x_key] and [y_key], nothing else: two envelopes that agree on
    these lead to the same outcome and the same world. *)
Theorem update_reads_two_fields (x_key y_key : string) (init_sequence : Z)
    (w : world) (e e' : envelope) (q : list envelope) :
  e'.1 = e.1 →
  e'.2 !! x_key = e.2 !! x_key →
  e'.2 !! y_key = e.2 !! y_key →
  update x_key y_key init_sequence (pending w (e' :: q))
  = update x_key y_key init_sequence (pending w (e :: q)).
Proof.
  destruct e as [s g], e' as [s' g']. simpl. intros -> Hx Hy.
  unfold update, recv, next_message, contains, column, getitem.
  run_M. by rewrite Hx, Hy.
Qed.

Lemma update_reads_two_fields_witness :
  update "x" "y" 0
    (pending fresh_scenario [env 1 [("x", 5); ("y", 50); ("z", 7)]])
  = update "x" "y" 0 (pending fresh_scenario [env 1 [("x", 5); ("y", 50)]]).
Proof.
  apply (update_reads_two_fields "x" "y" 0 fresh_scenario
           (env 1 [("x", 5); ("y", 50)])
           (env 1 [("x", 5); ("y", 50); ("z", 7)]) []);
    reflexivity.
Defined.

(** ** The snapshot loop, for any listing of keys *)

Section snapshot_loop.
Context (x_key : string) (y_keys : list string).















End snapshot_loop.








